(** * vectormath2d: the [dot2d] function

    A shallow embedding of [src/vectormath2d/src/vectormath2d.cpp]:

<<
    std::string dot2d(int x1, int y1, int x2, int y2) {
        int result = x1 * x2 + y1 * y2;
        spdlog::info("Computed 2D dot product: {}", result);
        return fmt::format("({},{})·({},{}) = {}", x1, y1, x2, y2, result);
    }
>>

    The C++ [int] is a 32-bit two's complement integer, carried here as a
    [Z] with the wrap-around of every operation written out.  The two
    library calls ([spdlog::info], [fmt::format]) are modelled as far as the
    function uses them: replacement fields [{}] filled with decimal integers,
    and a logger with a level threshold and a sink. *)

From Stdlib Require Import ZArith String Ascii List Lia Bool.
From Stdlib Require Import Decimal DecimalString DecimalZ.
Import ListNotations.

Local Open Scope Z_scope.

(* ===================================================================== *)
(** ** 32-bit [int] *)
(* ===================================================================== *)

Module Int.

Definition INT_MIN : Z := -2147483648.
Definition INT_MAX : Z := 2147483647.
Definition modulus : Z := 4294967296.

(** The values an [int] can hold. *)
Definition in_range (z : Z) : Prop := INT_MIN <= z <= INT_MAX.

Definition in_rangeb (z : Z) : bool := (INT_MIN <=? z) && (z <=? INT_MAX).

(** Reduction of an exact integer to its two's complement representative:
    the one value of [INT_MIN .. INT_MAX] congruent to it modulo 2^32. *)
Definition wrap (z : Z) : Z := (z - INT_MIN) mod modulus + INT_MIN.

(** [a * b] and [a + b] on [int]. *)
Definition mul (a b : Z) : Z := wrap (a * b).
Definition add (a b : Z) : Z := wrap (a + b).

End Int.

(* ===================================================================== *)
(** ** The formatting library, as used by [dot2d] *)
(* ===================================================================== *)

Module fmt.

(** What [fmt::format] throws ([fmt::format_error]). *)
Inductive format_error : Type :=
| unmatched_rbrace        (* a lone '}' in the format string *)
| invalid_format_string   (* '{' not followed by '{' or '}' *)
| argument_not_found.     (* more fields than arguments *)

Definition result (A : Type) : Type := (format_error + A)%type.

(** Decimal rendering of an integer argument: an optional minus sign and
    the digits of the magnitude, most significant first, with no leading
    zero and no padding. *)
Definition to_string (z : Z) : string :=
  NilZero.string_of_int (Z.to_int z).

(** Reading a decimal rendering back. *)
Definition of_string (s : string) : option Z :=
  option_map Z.of_int (NilZero.int_of_string s).

Definition map_result {A B : Type} (f : A -> B) (r : result A) : result B :=
  match r with
  | inl e => inl e
  | inr a => inr (f a)
  end.

(** Interpretation of a format string over a list of [int] arguments.
    Literal text is copied; [{{] and [}}] are escaped braces; [{}] is
    replaced by the next argument.  Arguments left over are ignored.
    Fields with an explicit index or a format specification do not occur
    in the source and are reported as invalid. *)
Fixpoint vformat (f : string) (args : list Z) : result string :=
  match f with
  | EmptyString => inr EmptyString
  | String c rest =>
      if Ascii.eqb c "{" then
        match rest with
        | EmptyString => inl invalid_format_string
        | String c' rest' =>
            if Ascii.eqb c' "{" then
              map_result (String "{") (vformat rest' args)
            else if Ascii.eqb c' "}" then
              match args with
              | [] => inl argument_not_found
              | a :: args' =>
                  map_result (String.append (to_string a)) (vformat rest' args')
              end
            else inl invalid_format_string
        end
      else if Ascii.eqb c "}" then
        match rest with
        | EmptyString => inl unmatched_rbrace
        | String c' rest' =>
            if Ascii.eqb c' "}" then
              map_result (String "}") (vformat rest' args)
            else inl unmatched_rbrace
        end
      else map_result (String c) (vformat rest args)
  end.

Definition format (f : string) (args : list Z) : result string :=
  vformat f args.

End fmt.

(* ===================================================================== *)
(** ** The logging library, as used by [dot2d] *)
(* ===================================================================== *)

Module spdlog.

Inductive level_enum : Type :=
| trace | debug | info | warn | err | critical | off.

Definition level_rank (l : level_enum) : nat :=
  match l with
  | trace => 0 | debug => 1 | info => 2 | warn => 3
  | err => 4 | critical => 5 | off => 6
  end.

(** The default logger: its threshold and what its sink has received, in
    order of arrival.  Time stamps and the output pattern belong to the
    sink and are left out; a record is the level and the formatted
    payload. *)
Record logger : Type := mk_logger {
  level : level_enum;
  sink : list (level_enum * string)
}.

Definition should_log (lg : logger) (msg_level : level_enum) : bool :=
  Nat.leb (level_rank (level lg)) (level_rank msg_level).

Definition sink_it (lg : logger) (msg : level_enum * string) : logger :=
  mk_logger (level lg) (sink lg ++ [msg]).

(** [logger::log]: nothing happens below the threshold; a formatting
    exception is caught inside the library and never reaches the caller,
    and the message is dropped. *)
Definition log (lvl : level_enum) (f : string) (args : list Z)
           (lg : logger) : logger :=
  if should_log lg lvl then
    match fmt.format f args with
    | inr payload => sink_it lg (lvl, payload)
    | inl _ => lg
    end
  else lg.

Definition default_logger : logger := mk_logger info [].

End spdlog.

(* ===================================================================== *)
(** ** Computations that log and may throw *)
(* ===================================================================== *)

(** A computation reads and updates the default logger and either returns a
    value or throws a [format_error]. *)
Definition M (A : Type) : Type :=
  spdlog.logger -> fmt.result A * spdlog.logger.

Definition ret {A : Type} (a : A) : M A := fun lg => (inr a, lg).

Definition bind {A B : Type} (c : M A) (k : A -> M B) : M B :=
  fun lg =>
    match c lg with
    | (inr a, lg') => k a lg'
    | (inl e, lg') => (inl e, lg')
    end.

Definition lift_result {A : Type} (r : fmt.result A) : M A :=
  fun lg => (r, lg).

Declare Scope dot_scope.
Delimit Scope dot_scope with dot.
Notation "c1 ;; c2" := (bind c1 (fun _ => c2))
  (at level 61, right associativity) : dot_scope.
Notation "x <- c1 ;; c2" := (bind c1 (fun x => c2))
  (at level 61, c1 at next level, right associativity) : dot_scope.

(** [spdlog::info(fmt, args...)], a [void] call on the default logger. *)
Definition spdlog_info (f : string) (args : list Z) : M unit :=
  fun lg => (inr tt, spdlog.log spdlog.info f args lg).

(** [fmt::format(fmt, args...)]. *)
Definition fmt_format (f : string) (args : list Z) : M string :=
  lift_result (fmt.format f args).

(* ===================================================================== *)
(** ** [dot2d] *)
(* ===================================================================== *)

(** Line 7: [int result = x1 * x2 + y1 * y2;] *)
Definition dot2d_result (x1 y1 x2 y2 : Z) : Z :=
  Int.add (Int.mul x1 x2) (Int.mul y1 y2).

Definition log_format : string := "Computed 2D dot product: {}".
Definition ret_format : string := "({},{})·({},{}) = {}".

(** Lines 6-10. *)
Definition dot2d (x1 y1 x2 y2 : Z) : M string :=
  (let result := dot2d_result x1 y1 x2 y2 in
   spdlog_info log_format [result] ;;
   fmt_format ret_format [x1; y1; x2; y2; result])%dot.

(** The returned value and the logger after the call. *)
Definition dot2d_returns (x1 y1 x2 y2 : Z) (lg : spdlog.logger)
  : fmt.result string := fst (dot2d x1 y1 x2 y2 lg).

Definition dot2d_logger (x1 y1 x2 y2 : Z) (lg : spdlog.logger)
  : spdlog.logger := snd (dot2d x1 y1 x2 y2 lg).

(** The exact dot product of the integer vectors [(x1,y1)] and [(x2,y2)]. *)
Definition dot_product (x1 y1 x2 y2 : Z) : Z := x1 * x2 + y1 * y2.

(** The returned string as a concatenation, with the value after the equals
    sign left open. *)
Definition operands (x1 y1 x2 y2 : Z) : string :=
  ("(" ++ fmt.to_string x1 ++ "," ++ fmt.to_string y1 ++ ")·("
       ++ fmt.to_string x2 ++ "," ++ fmt.to_string y2 ++ ")")%string.

Definition rendered (x1 y1 x2 y2 r : Z) : string :=
  (operands x1 y1 x2 y2 ++ " = " ++ fmt.to_string r)%string.

Definition log_payload (r : Z) : string :=
  ("Computed 2D dot product: " ++ fmt.to_string r)%string.

(* ===================================================================== *)
(** ** The body of [dot2d] as a sequence of statements *)
(* ===================================================================== *)

(** Control points of the body, each with the variables live there. *)
Inductive config : Type :=
| Entry (x1 y1 x2 y2 : Z)             (* before line 7 *)
| Computed (x1 y1 x2 y2 result : Z)   (* before line 8 *)
| Logged (x1 y1 x2 y2 result : Z)     (* before line 9 *)
| Returned (r : fmt.result string).   (* the call is over *)

(** What a statement does. *)
Inductive action : Type :=
| Arith | LogCall | FormatCall.

(** One statement.  [None]: there is nothing left to execute. *)
Definition step (st : config * spdlog.logger)
  : option (action * (config * spdlog.logger)) :=
  match st with
  | (Entry x1 y1 x2 y2, lg) =>
      Some (Arith, (Computed x1 y1 x2 y2 (dot2d_result x1 y1 x2 y2), lg))
  | (Computed x1 y1 x2 y2 result, lg) =>
      Some (LogCall,
            (Logged x1 y1 x2 y2 result,
             spdlog.log spdlog.info log_format [result] lg))
  | (Logged x1 y1 x2 y2 result, lg) =>
      Some (FormatCall,
            (Returned (fmt.format ret_format [x1; y1; x2; y2; result]), lg))
  | (Returned _, _) => None
  end.

(** Statements still ahead of a control point. *)
Definition remaining (c : config) : nat :=
  match c with
  | Entry _ _ _ _ => 3
  | Computed _ _ _ _ _ => 2
  | Logged _ _ _ _ _ => 1
  | Returned _ => 0
  end.

(** Run for at most [fuel] statements; the actions taken and where the run
    stands. *)
Fixpoint run (fuel : nat) (st : config * spdlog.logger)
  : list action * (config * spdlog.logger) :=
  match fuel with
  | O => ([], st)
  | S fuel' =>
      match step st with
      | None => ([], st)
      | Some (a, st') =>
          let (tr, fin) := run fuel' st' in (a :: tr, fin)
      end
  end.

Definition halted (st : config * spdlog.logger) : bool :=
  match step st with
  | None => true
  | Some _ => false
  end.

(* ===================================================================== *)
(** ** Shape of the rendered text *)
(* ===================================================================== *)

(** The characters a decimal rendering is made of: the minus sign and the
    ten digits. *)
Definition is_num_char (c : ascii) : bool :=
  Ascii.eqb c "-" ||
  ((48 <=? nat_of_ascii c)%nat && (nat_of_ascii c <=? 57)%nat).

Fixpoint all_chars (p : ascii -> bool) (s : string) : bool :=
  match s with
  | EmptyString => true
  | String c s' => p c && all_chars p s'
  end.

(** Two calls in a row, the first result dropped. *)
Definition dot2d_twice (a1 b1 a2 b2 c1 d1 c2 d2 : Z) : M string :=
  (dot2d a1 b1 a2 b2 ;; dot2d c1 d1 c2 d2)%dot.

(* ===================================================================== *)
(** ** Facts about [int] arithmetic *)
(* ===================================================================== *)

Module IntFacts.

Import Int.

Lemma modulus_pos : 0 < modulus.
Proof. reflexivity. Qed.

Lemma range_width : INT_MAX - INT_MIN + 1 = modulus.
Proof. reflexivity. Qed.

Lemma in_rangeb_spec z : in_rangeb z = true <-> in_range z.
Proof.
  unfold in_rangeb, in_range.
  rewrite andb_true_iff, !Z.leb_le. tauto.
Qed.

(** A wrapped value is an [int]. *)
Lemma wrap_in_range z : in_range (wrap z).
Proof.
  unfold in_range, wrap.
  pose proof (Z.mod_pos_bound (z - INT_MIN) modulus modulus_pos) as B.
  pose proof range_width. lia.
Qed.

(** Wrapping moves a value by a whole number of periods. *)
Lemma wrap_period z : exists k, wrap z = z + k * modulus.
Proof.
  exists (- ((z - INT_MIN) / modulus)).
  unfold wrap.
  pose proof (Z.div_mod (z - INT_MIN) modulus) as D.
  assert (modulus <> 0) as NZ by (pose proof modulus_pos; lia).
  specialize (D NZ). lia.
Qed.

Lemma wrap_congruent z : (wrap z - z) mod modulus = 0.
Proof.
  destruct (wrap_period z) as [k ->].
  replace (z + k * modulus - z) with (k * modulus) by ring.
  apply Z.mod_mul. pose proof modulus_pos; lia.
Qed.

(** Wrapping leaves an [int] alone. *)
Lemma wrap_small z : in_range z -> wrap z = z.
Proof.
  unfold in_range, wrap. intros R.
  rewrite Z.mod_small; [ring |].
  pose proof range_width. lia.
Qed.

(** ... and changes everything else. *)
Lemma wrap_fixed_iff z : wrap z = z <-> in_range z.
Proof.
  split.
  - intros E. rewrite <- E. apply wrap_in_range.
  - apply wrap_small.
Qed.

Lemma wrap_shift z k : wrap (z + k * modulus) = wrap z.
Proof.
  unfold wrap. f_equal.
  replace (z + k * modulus - INT_MIN) with (z - INT_MIN + k * modulus) by ring.
  apply Z.mod_add. pose proof modulus_pos; lia.
Qed.

(** Wrapping the operands before an addition is absorbed by wrapping the
    sum. *)
Lemma wrap_add_wrap a b : wrap (wrap a + wrap b) = wrap (a + b).
Proof.
  destruct (wrap_period a) as [ka ->].
  destruct (wrap_period b) as [kb ->].
  replace (a + ka * modulus + (b + kb * modulus))
    with (a + b + (ka + kb) * modulus) by ring.
  apply wrap_shift.
Qed.

Lemma mul_exact a b : in_range (a * b) -> mul a b = a * b.
Proof. apply wrap_small. Qed.

Lemma add_exact a b : in_range (a + b) -> add a b = a + b.
Proof. apply wrap_small. Qed.

Lemma mul_comm a b : mul a b = mul b a.
Proof. unfold mul. now rewrite Z.mul_comm. Qed.

End IntFacts.

(* ===================================================================== *)
(** ** Facts about the two libraries *)
(* ===================================================================== *)

Module FmtFacts.

Import fmt.

(** Reading a rendering back gives the number. *)
Lemma of_to_string z : of_string (to_string z) = Some z.
Proof.
  unfold of_string, to_string.
  rewrite NilZero.isi.
  - simpl. now rewrite DecimalZ.of_to.
  - destruct z as [| p | p]; simpl; try discriminate.
    intros E. injection E as E.
    now apply DecimalPos.Unsigned.to_uint_nonnil in E.
  - destruct z as [| p | p]; simpl; try discriminate.
    intros E. injection E as E.
    now apply DecimalPos.Unsigned.to_uint_nonnil in E.
Qed.

(** Different numbers render differently. *)
Lemma to_string_inj a b : to_string a = to_string b -> a = b.
Proof.
  intros E. apply (f_equal of_string) in E.
  rewrite !of_to_string in E. now injection E.
Qed.

(** The formatter has error paths of its own. *)
Lemma format_can_fail :
  format "{}" [] = inl argument_not_found /\
  format "}" [1] = inl unmatched_rbrace /\
  format "{0}" [1] = inl invalid_format_string.
Proof. repeat split. Qed.

Lemma append_empty_r (s : string) : (s ++ "")%string = s.
Proof. induction s as [| c s IH]; simpl; [| rewrite IH]; reflexivity. Qed.

Lemma append_assoc (a b c : string) :
  ((a ++ b) ++ c)%string = (a ++ (b ++ c))%string.
Proof. induction a as [| x a IH]; simpl; [| rewrite IH]; reflexivity. Qed.

(** The two format strings of [dot2d], on as many arguments as they have
    fields. *)
Lemma format_log r :
  format log_format [r] = inr (log_payload r).
Proof.
  unfold format, log_format, log_payload. cbn -[to_string].
  now rewrite append_empty_r.
Qed.

Lemma format_ret x1 y1 x2 y2 r :
  format ret_format [x1; y1; x2; y2; r] = inr (rendered x1 y1 x2 y2 r).
Proof.
  unfold format, ret_format, rendered, operands. cbn -[to_string].
  rewrite append_empty_r.
  repeat (rewrite append_assoc; cbn -[to_string]).
  reflexivity.
Qed.

End FmtFacts.

Module LogFacts.

Import spdlog.

(** What one [info] call with the format string of [dot2d] leaves in the
    logger. *)
Lemma log_info r lg :
  log info log_format [r] lg =
  if should_log lg info then sink_it lg (info, log_payload r) else lg.
Proof.
  unfold log. now rewrite FmtFacts.format_log.
Qed.

End LogFacts.

(* ===================================================================== *)
(** ** Facts about [dot2d] *)
(* ===================================================================== *)

(** Line 7 computes the wrapped dot product: the wrap of each product is
    absorbed by the wrap of the sum. *)
Lemma dot2d_result_wrap x1 y1 x2 y2 :
  dot2d_result x1 y1 x2 y2 = Int.wrap (dot_product x1 y1 x2 y2).
Proof.
  unfold dot2d_result, Int.add, Int.mul, dot_product.
  apply IntFacts.wrap_add_wrap.
Qed.

(** The whole call, in one equation. *)
Lemma dot2d_run x1 y1 x2 y2 lg :
  dot2d x1 y1 x2 y2 lg =
  (inr (rendered x1 y1 x2 y2 (dot2d_result x1 y1 x2 y2)),
   spdlog.log spdlog.info log_format [dot2d_result x1 y1 x2 y2] lg).
Proof.
  unfold dot2d, bind, spdlog_info, fmt_format, lift_result.
  now rewrite FmtFacts.format_ret.
Qed.

Lemma dot2d_returns_eq x1 y1 x2 y2 lg :
  dot2d_returns x1 y1 x2 y2 lg =
  inr (rendered x1 y1 x2 y2 (dot2d_result x1 y1 x2 y2)).
Proof. unfold dot2d_returns. now rewrite dot2d_run. Qed.

Lemma dot2d_logger_eq x1 y1 x2 y2 lg :
  dot2d_logger x1 y1 x2 y2 lg =
  spdlog.log spdlog.info log_format [dot2d_result x1 y1 x2 y2] lg.
Proof. unfold dot2d_logger. now rewrite dot2d_run. Qed.

(** The value after the equals sign determines the returned string's tail,
    and the other way round. *)
Lemma append_cancel_l (a b c : string) :
  (a ++ b)%string = (a ++ c)%string -> b = c.
Proof.
  induction a as [| x a IH]; simpl; intros E; [exact E |].
  injection E as E. now apply IH.
Qed.

Lemma rendered_inj x1 y1 x2 y2 r r' :
  rendered x1 y1 x2 y2 r = rendered x1 y1 x2 y2 r' -> r = r'.
Proof.
  unfold rendered. intros E.
  apply append_cancel_l in E. apply (append_cancel_l " = ") in E.
  now apply FmtFacts.to_string_inj.
Qed.

(** Every statement of the body moves one control point forward, and only
    the last control point has no statement: no statement is ever executed
    twice. *)
Lemma step_remaining st :
  match step st with
  | Some (_, st') => S (remaining (fst st')) = remaining (fst st)
  | None => remaining (fst st) = 0%nat
  end.
Proof.
  destruct st as [[x1 y1 x2 y2 | x1 y1 x2 y2 r | x1 y1 x2 y2 r | r] lg];
    reflexivity.
Qed.

(** Once halted, more fuel changes nothing. *)
Lemma run_halted fuel st : halted st = true -> run fuel st = ([], st).
Proof.
  unfold halted. destruct fuel; simpl; [reflexivity |].
  destruct (step st); [discriminate | reflexivity].
Qed.

(* ===================================================================== *)
(** ** The value computed on line 7 *)
(* ===================================================================== *)

(** C1, as stated, fails: on the [int] inputs [(65536, 0)] and [(65536, 0)]
    the exact dot product is 2^32, which no [int] holds, and line 7
    computes 0. *)
Lemma dot2d_result_not_exact :
  Int.in_range 65536 /\ Int.in_range 0 /\
  dot2d_result 65536 0 65536 0 = 0 /\
  dot_product 65536 0 65536 0 = 4294967296 /\
  dot2d_result 65536 0 65536 0 <> 65536 * 65536 + 0 * 0.
Proof.
  repeat split; try (intro; discriminate); vm_compute; congruence.
Qed.

(** C1, amended: for every four inputs, the value [dot2d] computes
    internally is the [int] congruent modulo 2^32 to the 2D dot product
    [x1*x2 + y1*y2], and it equals that dot product exactly when the dot
    product lies in the signed 32-bit range. *)
Theorem dot2d_result_mod_2_32 (x1 y1 x2 y2 : Z) :
  let result := dot2d_result x1 y1 x2 y2 in
  Int.in_range result /\
  (result - (x1 * x2 + y1 * y2)) mod 2 ^ 32 = 0 /\
  (result = x1 * x2 + y1 * y2 <-> Int.in_range (x1 * x2 + y1 * y2)).
Proof.
  cbv zeta. rewrite dot2d_result_wrap. unfold dot_product.
  change (2 ^ 32) with Int.modulus.
  split; [apply IntFacts.wrap_in_range |].
  split; [apply IntFacts.wrap_congruent |].
  apply IntFacts.wrap_fixed_iff.
Qed.

Lemma dot2d_result_mod_2_32_witness :
  Int.in_range (3 * 5 + 4 * 6) /\ dot2d_result 3 4 5 6 = 3 * 5 + 4 * 6.
Proof.
  assert (Int.in_range (3 * 5 + 4 * 6)) as R
    by (apply IntFacts.in_rangeb_spec; reflexivity).
  split; [exact R |].
  exact (proj2 (proj2 (proj2 (dot2d_result_mod_2_32 3 4 5 6))) R).
Defined.

(** C6, as stated, fails: on the [int] inputs [(50000, 50000)] and
    [(50000, -49999)] both products are outside the signed 32-bit range,
    and neither is computed exactly, yet the two wrap-arounds cancel and
    line 7 computes the exact dot product, 50000. *)
Lemma dot2d_overflows_cancel :
  (Int.in_range 50000 /\ Int.in_range (-49999)) /\
  ~ Int.in_range (50000 * 50000) /\
  ~ Int.in_range (50000 * -49999) /\
  Int.mul 50000 50000 <> 50000 * 50000 /\
  Int.mul 50000 (-49999) <> 50000 * -49999 /\
  dot2d_result 50000 50000 50000 (-49999) = 50000 /\
  dot2d_result 50000 50000 50000 (-49999) = 50000 * 50000 + 50000 * -49999.
Proof.
  split; [split; apply IntFacts.in_rangeb_spec; reflexivity |].
  split; [rewrite <- IntFacts.in_rangeb_spec; discriminate |].
  split; [rewrite <- IntFacts.in_rangeb_spec; discriminate |].
  repeat split; vm_compute; congruence.
Qed.

(** C6, amended: the arithmetic is 32-bit [int] arithmetic.  When [x1*x2],
    [y1*y2] and their sum each lie in the signed 32-bit range, the computed
    result is the exact dot product.  In general every operation wraps
    modulo 2^32: a product is computed exactly if and only if it lies in
    the signed 32-bit range, and the result is an [int] that differs from
    the exact dot product by a multiple of 2^32, which is zero if and only
    if the exact dot product lies in the signed 32-bit range. *)
Theorem dot2d_int_arithmetic (x1 y1 x2 y2 : Z) :
  (Int.in_range (x1 * x2) -> Int.in_range (y1 * y2) ->
   Int.in_range (x1 * x2 + y1 * y2) ->
   Int.mul x1 x2 = x1 * x2 /\ Int.mul y1 y2 = y1 * y2 /\
   dot2d_result x1 y1 x2 y2 = x1 * x2 + y1 * y2) /\
  (Int.mul x1 x2 = x1 * x2 <-> Int.in_range (x1 * x2)) /\
  (Int.mul y1 y2 = y1 * y2 <-> Int.in_range (y1 * y2)) /\
  (exists k, dot2d_result x1 y1 x2 y2 = x1 * x2 + y1 * y2 + k * 2 ^ 32 /\
             - 2 ^ 31 <= dot2d_result x1 y1 x2 y2 < 2 ^ 31 /\
             (k = 0 <-> Int.in_range (x1 * x2 + y1 * y2))) /\
  (dot2d_result x1 y1 x2 y2 = x1 * x2 + y1 * y2 <->
   Int.in_range (x1 * x2 + y1 * y2)).
Proof.
  split; [| split; [| split; [| split]]].
  - intros R1 R2 R3. unfold dot2d_result.
    rewrite (IntFacts.mul_exact x1 x2 R1), (IntFacts.mul_exact y1 y2 R2).
    repeat split. now apply IntFacts.add_exact.
  - apply IntFacts.wrap_fixed_iff.
  - apply IntFacts.wrap_fixed_iff.
  - rewrite dot2d_result_wrap. unfold dot_product.
    destruct (IntFacts.wrap_period (x1 * x2 + y1 * y2)) as [k E].
    exists k. change (2 ^ 32) with Int.modulus.
    split; [exact E |].
    split.
    + pose proof (IntFacts.wrap_in_range (x1 * x2 + y1 * y2)) as R.
      unfold Int.in_range, Int.INT_MIN, Int.INT_MAX in R. lia.
    + rewrite <- IntFacts.wrap_fixed_iff. rewrite E.
      pose proof IntFacts.modulus_pos. split; [intros ->; lia | nia].
  - rewrite dot2d_result_wrap. apply IntFacts.wrap_fixed_iff.
Qed.

Lemma dot2d_int_arithmetic_witness :
  (Int.in_range (3 * 5) /\ Int.in_range (4 * 6) /\
   Int.in_range (3 * 5 + 4 * 6) /\ dot2d_result 3 4 5 6 = 39) /\
  (~ Int.in_range (65536 * 65536 + 0 * 0) /\
   dot2d_result 65536 0 65536 0 <> 65536 * 65536 + 0 * 0) /\
  (Int.in_range (50000 * 50000 + 50000 * -49999) /\
   dot2d_result 50000 50000 50000 (-49999) =
     50000 * 50000 + 50000 * -49999).
Proof.
  split; [| split].
  - assert (Int.in_range (3 * 5)) as R1
      by (apply IntFacts.in_rangeb_spec; reflexivity).
    assert (Int.in_range (4 * 6)) as R2
      by (apply IntFacts.in_rangeb_spec; reflexivity).
    assert (Int.in_range (3 * 5 + 4 * 6)) as R3
      by (apply IntFacts.in_rangeb_spec; reflexivity).
    repeat (split; [assumption |]).
    exact (proj2 (proj2 (proj1 (dot2d_int_arithmetic 3 4 5 6) R1 R2 R3))).
  - assert (~ Int.in_range (65536 * 65536 + 0 * 0)) as NR
      by (rewrite <- IntFacts.in_rangeb_spec; discriminate).
    split; [exact NR |].
    intros E. apply NR.
    exact (proj1 (proj2 (proj2 (proj2 (proj2
             (dot2d_int_arithmetic 65536 0 65536 0))))) E).
  - assert (Int.in_range (50000 * 50000 + 50000 * -49999)) as R
      by (apply IntFacts.in_rangeb_spec; reflexivity).
    split; [exact R |].
    exact (proj2 (proj2 (proj2 (proj2 (proj2
             (dot2d_int_arithmetic 50000 50000 50000 (-49999)))))) R).
Defined.

(** C5: the computed value is symmetric in the two vectors, and the two
    returned strings carry the same value after the equals sign, behind
    the operands in either order. *)
Theorem dot2d_result_symmetric (x1 y1 x2 y2 : Z) (lg lg' : spdlog.logger) :
  dot2d_result x1 y1 x2 y2 = dot2d_result x2 y2 x1 y1 /\
  exists r,
    dot2d_returns x1 y1 x2 y2 lg =
      inr (operands x1 y1 x2 y2 ++ " = " ++ fmt.to_string r)%string /\
    dot2d_returns x2 y2 x1 y1 lg' =
      inr (operands x2 y2 x1 y1 ++ " = " ++ fmt.to_string r)%string.
Proof.
  assert (dot2d_result x1 y1 x2 y2 = dot2d_result x2 y2 x1 y1) as Sym.
  { unfold dot2d_result.
    now rewrite (IntFacts.mul_comm x1 x2), (IntFacts.mul_comm y1 y2). }
  split; [exact Sym |].
  exists (dot2d_result x1 y1 x2 y2). split.
  - apply dot2d_returns_eq.
  - rewrite Sym. apply dot2d_returns_eq.
Qed.

(* ===================================================================== *)
(** ** The returned string and the log *)
(* ===================================================================== *)

(** C2: for every four inputs and whatever the logger holds, [dot2d]
    returns exactly the string ["({x1},{y1})·({x2},{y2}) = {r}"], every
    placeholder being the decimal rendering of its argument and [r] the
    dot product as line 7 computed it. *)
Theorem dot2d_returns_string (x1 y1 x2 y2 : Z) (lg : spdlog.logger) :
  dot2d_returns x1 y1 x2 y2 lg =
  inr ("(" ++ fmt.to_string x1 ++ "," ++ fmt.to_string y1 ++ ")·("
           ++ fmt.to_string x2 ++ "," ++ fmt.to_string y2 ++ ") = "
           ++ fmt.to_string (Int.add (Int.mul x1 x2) (Int.mul y1 y2)))%string.
Proof.
  rewrite dot2d_returns_eq. unfold rendered, operands, dot2d_result.
  f_equal.
  repeat (rewrite FmtFacts.append_assoc; cbn -[fmt.to_string]).
  reflexivity.
Qed.

(** C3: two calls with pairwise equal arguments return equal strings,
    whatever the logger held before either call; in particular a call made
    right after another one returns what the first returned. *)
Theorem dot2d_deterministic
        (x1 y1 x2 y2 x1' y1' x2' y2' : Z) (lg lg' : spdlog.logger) :
  x1 = x1' -> y1 = y1' -> x2 = x2' -> y2 = y2' ->
  dot2d_returns x1 y1 x2 y2 lg = dot2d_returns x1' y1' x2' y2' lg' /\
  dot2d_returns x1' y1' x2' y2' (dot2d_logger x1 y1 x2 y2 lg) =
    dot2d_returns x1 y1 x2 y2 lg.
Proof.
  intros <- <- <- <-. now rewrite !dot2d_returns_eq.
Qed.

Lemma dot2d_deterministic_witness :
  dot2d_returns 1 2 3 4 spdlog.default_logger =
  dot2d_returns 1 2 3 4 (spdlog.mk_logger spdlog.off
                           [(spdlog.warn, "earlier record"%string)]).
Proof.
  exact (proj1 (dot2d_deterministic 1 2 3 4 1 2 3 4 spdlog.default_logger
                  (spdlog.mk_logger spdlog.off
                     [(spdlog.warn, "earlier record"%string)])
                  eq_refl eq_refl eq_refl eq_refl)).
Defined.

(** C4: for every four inputs and every logger, the call returns a string;
    none of the formatter's errors comes out of it. *)
Theorem dot2d_total (x1 y1 x2 y2 : Z) (lg : spdlog.logger) :
  (exists s lg', dot2d x1 y1 x2 y2 lg = (inr s, lg')) /\
  (forall e, dot2d_returns x1 y1 x2 y2 lg <> inl e).
Proof.
  split.
  - rewrite dot2d_run. eauto.
  - intros e. rewrite dot2d_returns_eq. discriminate.
Qed.

(** C7: the number handed to the logging call is the number after the
    equals sign of the returned string: there is one [r], the value of
    line 7, that ends the returned string and is the payload of the record
    the logger receives (when its threshold lets [info] through; otherwise
    the logger is left as it was); the returned string admits no other
    number after its equals sign. *)
Theorem dot2d_logs_what_it_returns (x1 y1 x2 y2 : Z) (lg : spdlog.logger) :
  exists r,
    r = dot2d_result x1 y1 x2 y2 /\
    dot2d_returns x1 y1 x2 y2 lg =
      inr (operands x1 y1 x2 y2 ++ " = " ++ fmt.to_string r)%string /\
    dot2d_logger x1 y1 x2 y2 lg =
      (if spdlog.should_log lg spdlog.info
       then spdlog.sink_it lg
              (spdlog.info,
               ("Computed 2D dot product: " ++ fmt.to_string r)%string)
       else lg) /\
    (forall r',
        dot2d_returns x1 y1 x2 y2 lg =
          inr (operands x1 y1 x2 y2 ++ " = " ++ fmt.to_string r')%string ->
        r' = r).
Proof.
  exists (dot2d_result x1 y1 x2 y2).
  rewrite dot2d_returns_eq, dot2d_logger_eq, LogFacts.log_info.
  repeat split.
  intros r' E. symmetry. apply (rendered_inj x1 y1 x2 y2).
  unfold rendered in *. congruence.
Qed.

Lemma dot2d_logs_what_it_returns_witness :
  dot2d_returns 1 2 3 4 spdlog.default_logger
    = inr "(1,2)·(3,4) = 11"%string /\
  spdlog.sink (dot2d_logger 1 2 3 4 spdlog.default_logger)
    = [(spdlog.info, "Computed 2D dot product: 11"%string)].
Proof.
  destruct (dot2d_logs_what_it_returns 1 2 3 4 spdlog.default_logger)
    as [r [_ [Ret [Log Uniq]]]].
  assert (11 = r) as <- by (apply Uniq; reflexivity).
  split; [reflexivity |].
  rewrite Log. reflexivity.
Defined.

(* ===================================================================== *)
(** ** Termination *)
(* ===================================================================== *)

(** C8: for every four inputs and every logger, the body runs to its end
    in exactly three statements, an arithmetic expression, a logging call
    and a formatting call in this order, and stops there with the result
    of the function; more fuel adds no statement.  Every statement leaves
    one statement fewer ahead, so none is executed twice. *)
Theorem dot2d_terminates (x1 y1 x2 y2 : Z) (lg : spdlog.logger) :
  (exists r lg',
      run 3 (Entry x1 y1 x2 y2, lg)
        = ([Arith; LogCall; FormatCall], (Returned r, lg')) /\
      halted (Returned r, lg') = true /\
      (forall extra, run (3 + extra) (Entry x1 y1 x2 y2, lg)
                     = run 3 (Entry x1 y1 x2 y2, lg)) /\
      dot2d x1 y1 x2 y2 lg = (r, lg')) /\
  (forall st,
      match step st with
      | Some (_, st') => (remaining (fst st') < remaining (fst st))%nat
      | None => remaining (fst st) = 0%nat
      end).
Proof.
  split.
  - exists (inr (rendered x1 y1 x2 y2 (dot2d_result x1 y1 x2 y2))).
    exists (spdlog.log spdlog.info log_format [dot2d_result x1 y1 x2 y2] lg).
    split; [| split; [| split]].
    + cbn [run step]. now rewrite FmtFacts.format_ret.
    + reflexivity.
    + intros extra. cbn [run step Nat.add]. now rewrite run_halted.
    + apply dot2d_run.
  - intros st. pose proof (step_remaining st) as D.
    destruct (step st) as [[a st'] |]; [| exact D].
    rewrite <- D. apply Nat.lt_succ_diag_r.
Qed.

(* ===================================================================== *)
(** ** More on the arithmetic of line 7 *)
(* ===================================================================== *)

Module IntRing.

Import Int.

(** Wrapping a factor before a multiplication is absorbed by wrapping the
    product. *)
Lemma wrap_mul_wrap_l a b : wrap (wrap a * b) = wrap (a * b).
Proof.
  destruct (IntFacts.wrap_period a) as [k ->].
  replace ((a + k * modulus) * b) with (a * b + (k * b) * modulus) by ring.
  apply IntFacts.wrap_shift.
Qed.

Lemma wrap_mul_wrap_r a b : wrap (a * wrap b) = wrap (a * b).
Proof. rewrite (Z.mul_comm a), wrap_mul_wrap_l. now rewrite Z.mul_comm. Qed.

Lemma wrap_add_wrap_l a b : wrap (wrap a + b) = wrap (a + b).
Proof.
  destruct (IntFacts.wrap_period a) as [k ->].
  replace (a + k * modulus + b) with (a + b + k * modulus) by ring.
  apply IntFacts.wrap_shift.
Qed.

End IntRing.

(** Products of two operands of magnitude at most 32767. *)
Lemma small_product_bound a b :
  Z.abs a <= 32767 -> Z.abs b <= 32767 -> Z.abs (a * b) <= 1073676289.
Proof.
  intros A B. rewrite Z.abs_mul.
  change 1073676289 with (32767 * 32767).
  apply Z.mul_le_mono_nonneg; auto using Z.abs_nonneg.
Qed.

(** X1: operands of magnitude at most 32767 never overflow: both products
    and their sum are in the [int] range and the computed value is the
    exact dot product.  The bound cannot be raised: any larger bound admits
    [int] operands on which the computed value is not the dot product. *)
Theorem dot2d_exact_below_32768 :
  (forall x1 y1 x2 y2,
      Z.abs x1 <= 32767 -> Z.abs y1 <= 32767 ->
      Z.abs x2 <= 32767 -> Z.abs y2 <= 32767 ->
      Int.in_range (x1 * x2) /\ Int.in_range (y1 * y2) /\
      Int.in_range (x1 * x2 + y1 * y2) /\
      dot2d_result x1 y1 x2 y2 = x1 * x2 + y1 * y2) /\
  (forall B, 32767 < B ->
      exists x1 y1 x2 y2,
        (Z.abs x1 <= B /\ Z.abs y1 <= B /\ Z.abs x2 <= B /\ Z.abs y2 <= B) /\
        (Int.in_range x1 /\ Int.in_range y1 /\
         Int.in_range x2 /\ Int.in_range y2) /\
        dot2d_result x1 y1 x2 y2 <> x1 * x2 + y1 * y2).
Proof.
  split.
  - intros x1 y1 x2 y2 A1 B1 A2 B2.
    pose proof (small_product_bound x1 x2 A1 A2) as P1.
    pose proof (small_product_bound y1 y2 B1 B2) as P2.
    assert (Int.in_range (x1 * x2)) as R1
      by (unfold Int.in_range, Int.INT_MIN, Int.INT_MAX; lia).
    assert (Int.in_range (y1 * y2)) as R2
      by (unfold Int.in_range, Int.INT_MIN, Int.INT_MAX; lia).
    assert (Int.in_range (x1 * x2 + y1 * y2)) as R3
      by (unfold Int.in_range, Int.INT_MIN, Int.INT_MAX; lia).
    repeat (split; [assumption |]).
    rewrite dot2d_result_wrap. now apply IntFacts.wrap_small.
  - intros B HB. exists 32768, 32768, 32768, 32768.
    split; [repeat split; simpl; lia |].
    split; [repeat split; intro; discriminate |].
    vm_compute. discriminate.
Qed.

Lemma dot2d_exact_below_32768_witness :
  dot2d_result 32767 (-32767) (-32767) 32767 = -2147352578 /\
  exists x1 y1 x2 y2,
    Z.abs x1 <= 32768 /\ dot2d_result x1 y1 x2 y2 <> x1 * x2 + y1 * y2.
Proof.
  split.
  - assert (Z.abs 32767 <= 32767) as P by reflexivity.
    assert (Z.abs (-32767) <= 32767) as N by reflexivity.
    exact (proj2 (proj2 (proj2
             (proj1 dot2d_exact_below_32768 32767 (-32767) (-32767) 32767
                    P N N P)))).
  - assert (32767 < 32768) as L by reflexivity.
    destruct (proj2 dot2d_exact_below_32768 32768 L)
      as [x1 [y1 [x2 [y2 [[A _] [_ D]]]]]].
    exists x1, y1, x2, y2. split; assumption.
Defined.

(** X2: the dot product of a vector with itself, when it fits in an [int],
    comes out non-negative, and comes out zero for the zero vector only. *)
Theorem dot2d_self_definite (x y : Z) :
  Int.in_range (x * x + y * y) ->
  0 <= dot2d_result x y x y /\
  (dot2d_result x y x y = 0 <-> x = 0 /\ y = 0).
Proof.
  intros R. rewrite dot2d_result_wrap. unfold dot_product.
  rewrite (IntFacts.wrap_small _ R).
  split; [nia |].
  split; [intros E; split; nia | intros [-> ->]; reflexivity].
Qed.

Lemma dot2d_self_definite_witness :
  Int.in_range (3 * 3 + (-4) * (-4)) /\ 0 <= dot2d_result 3 (-4) 3 (-4).
Proof.
  assert (Int.in_range (3 * 3 + (-4) * (-4))) as R
    by (apply IntFacts.in_rangeb_spec; reflexivity).
  split; [exact R |].
  exact (proj1 (dot2d_self_definite 3 (-4) R)).
Defined.

(** X3: the computed value is additive in the first vector, with [int]
    addition on both sides, overflow or not. *)
Theorem dot2d_result_additive (x1 y1 a b x2 y2 : Z) :
  dot2d_result (Int.add x1 a) (Int.add y1 b) x2 y2 =
  Int.add (dot2d_result x1 y1 x2 y2) (dot2d_result a b x2 y2).
Proof.
  rewrite !dot2d_result_wrap. unfold dot_product, Int.add.
  rewrite IntFacts.wrap_add_wrap.
  rewrite <- (IntFacts.wrap_add_wrap (_ * x2) (_ * y2)).
  rewrite !IntRing.wrap_mul_wrap_l.
  rewrite IntFacts.wrap_add_wrap.
  f_equal. ring.
Qed.

(** X4: scaling the first vector by an [int] scales the computed value, with
    [int] multiplication on both sides, overflow or not. *)
Theorem dot2d_result_homogeneous (k x1 y1 x2 y2 : Z) :
  dot2d_result (Int.mul k x1) (Int.mul k y1) x2 y2 =
  Int.mul k (dot2d_result x1 y1 x2 y2).
Proof.
  rewrite !dot2d_result_wrap. unfold dot_product, Int.mul.
  rewrite IntRing.wrap_mul_wrap_r.
  rewrite <- (IntFacts.wrap_add_wrap (_ * x2) (_ * y2)).
  rewrite !IntRing.wrap_mul_wrap_l.
  rewrite IntFacts.wrap_add_wrap.
  f_equal. ring.
Qed.

(** X5: a vector and its quarter turn have computed dot product zero, for
    every vector, also when the two products overflow; the turned vector's
    first coordinate is the [int] negation, which is again an [int]. *)
Theorem dot2d_result_quarter_turn (x y : Z) :
  Int.in_range (Int.wrap (- y)) /\
  dot2d_result x y (Int.wrap (- y)) x = 0.
Proof.
  split; [apply IntFacts.wrap_in_range |].
  rewrite dot2d_result_wrap. unfold dot_product.
  rewrite <- IntRing.wrap_add_wrap_l, IntRing.wrap_mul_wrap_r.
  rewrite IntRing.wrap_add_wrap_l.
  replace (x * - y + y * x) with 0 by ring.
  reflexivity.
Qed.

(* ===================================================================== *)
(** ** More on the returned string *)
(* ===================================================================== *)

Module TextFacts.

Import fmt.

Lemma uint_chars d : all_chars is_num_char (NilEmpty.string_of_uint d) = true.
Proof. induction d; simpl; auto. Qed.

(** A rendering holds nothing but a sign and digits. *)
Lemma to_string_chars z : all_chars is_num_char (to_string z) = true.
Proof.
  unfold to_string.
  destruct (Z.to_int z) as [d | d]; simpl;
    destruct d; try reflexivity; apply uint_chars.
Qed.

(** Two texts made of [p]-characters, each followed by a character that is
    not one, agree as soon as the whole strings agree. *)
Lemma split_unique (p : ascii -> bool) u v c c' s s' :
  all_chars p u = true -> all_chars p v = true ->
  p c = false -> p c' = false ->
  (u ++ String c s)%string = (v ++ String c' s')%string ->
  u = v /\ c = c' /\ s = s'.
Proof.
  revert v. induction u as [| a u IH]; intros [| b v] U V C C' E; simpl in *.
  - injection E as -> ->. auto.
  - injection E as -> _. apply andb_true_iff in V. destruct V; congruence.
  - injection E as -> _. apply andb_true_iff in U. destruct U; congruence.
  - injection E as -> E.
    apply andb_true_iff in U, V. destruct U as [_ U], V as [_ V].
    destruct (IH v U V C C' E) as [-> [-> ->]]. auto.
Qed.

(** A number followed by a separator: both can be read off. *)
Lemma number_then_separator a b c c' s s' :
  is_num_char c = false -> is_num_char c' = false ->
  (to_string a ++ String c s)%string = (to_string b ++ String c' s')%string ->
  a = b /\ c = c' /\ s = s'.
Proof.
  intros C C' E.
  destruct (split_unique is_num_char _ _ _ _ _ _
              (to_string_chars a) (to_string_chars b) C C' E) as [T R].
  split; [now apply FmtFacts.to_string_inj | exact R].
Qed.

(** The returned text with its concatenations laid out. *)
Lemma rendered_layout x1 y1 x2 y2 r :
  rendered x1 y1 x2 y2 r =
  String "("
    (to_string x1 ++ String ","
      (to_string y1 ++ String ")" (String "194" (String "183" (String "("
        (to_string x2 ++ String ","
          (to_string y2 ++ String ")" (String " " (String "=" (String " "
            (to_string r))))))))))).
Proof.
  unfold rendered, operands.
  repeat (rewrite FmtFacts.append_assoc; cbn -[to_string]).
  reflexivity.
Qed.

Lemma rendered_inj_all x1 y1 x2 y2 r a1 b1 a2 b2 r' :
  rendered x1 y1 x2 y2 r = rendered a1 b1 a2 b2 r' ->
  x1 = a1 /\ y1 = b1 /\ x2 = a2 /\ y2 = b2 /\ r = r'.
Proof.
  rewrite !rendered_layout. intros E. injection E as E.
  apply number_then_separator in E; [| reflexivity | reflexivity].
  destruct E as [-> [_ E]].
  apply number_then_separator in E; [| reflexivity | reflexivity].
  destruct E as [-> [_ E]]. injection E as E.
  apply number_then_separator in E; [| reflexivity | reflexivity].
  destruct E as [-> [_ E]].
  apply number_then_separator in E; [| reflexivity | reflexivity].
  destruct E as [-> [_ E]]. injection E as E.
  apply FmtFacts.to_string_inj in E. auto.
Qed.

End TextFacts.

(** X6: the returned string determines the arguments: two calls that return
    the same string were given the same four arguments, whatever the two
    loggers held. *)
Theorem dot2d_returns_injective
        (x1 y1 x2 y2 a1 b1 a2 b2 : Z) (lg lg' : spdlog.logger) :
  dot2d_returns x1 y1 x2 y2 lg = dot2d_returns a1 b1 a2 b2 lg' ->
  x1 = a1 /\ y1 = b1 /\ x2 = a2 /\ y2 = b2.
Proof.
  rewrite !dot2d_returns_eq. intros E.
  assert (rendered x1 y1 x2 y2 (dot2d_result x1 y1 x2 y2) =
          rendered a1 b1 a2 b2 (dot2d_result a1 b1 a2 b2)) as R
    by congruence.
  apply TextFacts.rendered_inj_all in R. tauto.
Qed.

Lemma dot2d_returns_injective_witness :
  dot2d_returns 12 (-3) 0 7 spdlog.default_logger =
    dot2d_returns 12 (-3) 0 7 (spdlog.mk_logger spdlog.off []) /\
  (12 = 12 /\ -3 = -3 /\ 0 = 0 /\ 7 = 7).
Proof.
  assert (dot2d_returns 12 (-3) 0 7 spdlog.default_logger =
          dot2d_returns 12 (-3) 0 7 (spdlog.mk_logger spdlog.off [])) as E
    by reflexivity.
  split; [exact E |].
  exact (dot2d_returns_injective 12 (-3) 0 7 12 (-3) 0 7 _ _ E).
Defined.

Module LengthFacts.

Import fmt.

Lemma length_append (a b : string) :
  String.length (a ++ b) = (String.length a + String.length b)%nat.
Proof. induction a as [| c a IH]; simpl; [| rewrite IH]; reflexivity. Qed.

Lemma length_string_of_uint d :
  String.length (NilEmpty.string_of_uint d) = nb_digits d.
Proof. induction d; simpl; congruence. Qed.

(** Reading digits after an accumulator multiplies the accumulator by ten
    for each digit, at least. *)
Lemma of_uint_acc_lower d :
  forall acc,
    Z.pos acc * 10 ^ Z.of_nat (nb_digits d) <= Z.pos (Pos.of_uint_acc d acc).
Proof.
  induction d as [| d IH | d IH | d IH | d IH | d IH
                  | d IH | d IH | d IH | d IH | d IH];
    intros acc;
    [ simpl; lia | .. ];
    cbn [nb_digits Pos.of_uint_acc];
    rewrite Nat2Z.inj_succ, Z.pow_succ_r by apply Nat2Z.is_nonneg;
    (eapply Z.le_trans; [| apply IH]);
    pose proof (Z.pow_pos_nonneg 10 (Z.of_nat (nb_digits d))
                  ltac:(lia) (Nat2Z.is_nonneg _));
    nia.
Qed.

(** The digits of a positive number start with a digit that is not zero. *)
Lemma to_uint_head p : nzhead (Pos.to_uint p) = Pos.to_uint p.
Proof.
  pose proof (DecimalPos.Unsigned.to_of (Pos.to_uint p)) as N.
  rewrite DecimalPos.Unsigned.of_to in N. simpl in N.
  pose proof (DecimalPos.Unsigned.to_uint_nonzero p) as NZ.
  pose proof (DecimalFacts.nb_digits_nzhead (Pos.to_uint p)) as L.
  destruct (Pos.to_uint p) as [| d | d | d | d | d | d | d | d | d | d];
    try reflexivity.
  exfalso. unfold unorm in N. simpl in N, L.
  pose proof (DecimalFacts.nb_digits_nzhead d) as L'.
  destruct (nzhead d); try (apply NZ; now rewrite N);
    rewrite <- N in L'; simpl in L'; lia.
Qed.

(** A positive number has at most as many digits as its size allows. *)
Lemma digits_bound p (k : nat) :
  Z.pos p < 10 ^ Z.of_nat k -> (nb_digits (Pos.to_uint p) <= k)%nat.
Proof.
  intros B.
  pose proof (DecimalPos.Unsigned.of_to p) as O.
  pose proof (to_uint_head p) as H.
  pose proof (DecimalPos.Unsigned.to_uint_nonnil p) as NN.
  assert (forall l acc, N.pos (Pos.of_uint_acc l acc) = N.pos p ->
                        (S (nb_digits l) <= k)%nat) as K.
  { intros l acc E. injection E as E.
    pose proof (of_uint_acc_lower l acc) as A. rewrite E in A.
    assert (10 ^ Z.of_nat (nb_digits l) < 10 ^ Z.of_nat k) as P.
    { pose proof (Z.pow_pos_nonneg 10 (Z.of_nat (nb_digits l))
                    ltac:(lia) (Nat2Z.is_nonneg _)). nia. }
    apply Z.pow_lt_mono_r_iff in P; lia. }
  destruct (Pos.to_uint p) as [| d | d | d | d | d | d | d | d | d | d];
    [ congruence | | | | | | | | | | ];
    simpl in O; simpl;
    try (now apply (K d _ O)).
  (* leading zero *)
  simpl in H. pose proof (DecimalFacts.nb_digits_nzhead d) as L.
  rewrite H in L. simpl in L. lia.
Qed.

(** An [int] renders into 1 to 11 characters. *)
Lemma to_string_length z :
  Int.in_range z -> (1 <= String.length (to_string z) <= 11)%nat.
Proof.
  unfold Int.in_range, Int.INT_MIN, Int.INT_MAX, to_string. intros R.
  destruct z as [| p | p]; simpl.
  - lia.
  - pose proof (DecimalPos.Unsigned.to_uint_nonnil p) as NN.
    assert (nb_digits (Pos.to_uint p) <= 10)%nat as D
      by (apply digits_bound; change (10 ^ Z.of_nat 10) with 10000000000; lia).
    unfold NilZero.string_of_uint.
    destruct (Pos.to_uint p) eqn:E; try congruence;
      rewrite length_string_of_uint; simpl in *; lia.
  - pose proof (DecimalPos.Unsigned.to_uint_nonnil p) as NN.
    assert (nb_digits (Pos.to_uint p) <= 10)%nat as D
      by (apply digits_bound; change (10 ^ Z.of_nat 10) with 10000000000; lia).
    unfold NilZero.string_of_uint.
    destruct (Pos.to_uint p) eqn:E; try congruence;
      rewrite length_string_of_uint; simpl in *; lia.
Qed.

Lemma rendered_length x1 y1 x2 y2 r :
  String.length (rendered x1 y1 x2 y2 r) =
  (11 + String.length (to_string x1) + String.length (to_string y1)
      + String.length (to_string x2) + String.length (to_string y2)
      + String.length (to_string r))%nat.
Proof.
  rewrite TextFacts.rendered_layout.
  repeat (cbn [String.length]; rewrite ?length_append).
  lia.
Qed.

End LengthFacts.

(** X7: on [int] arguments the returned string is between 16 and 66 bytes
    long (the middle dot takes two), and both lengths occur. *)
Theorem dot2d_returns_length :
  (forall x1 y1 x2 y2 lg,
      Int.in_range x1 -> Int.in_range y1 ->
      Int.in_range x2 -> Int.in_range y2 ->
      exists s, dot2d_returns x1 y1 x2 y2 lg = inr s /\
                (16 <= String.length s <= 66)%nat) /\
  (exists x1 y1 x2 y2 s,
      (Int.in_range x1 /\ Int.in_range y1 /\
       Int.in_range x2 /\ Int.in_range y2) /\
      dot2d_returns x1 y1 x2 y2 spdlog.default_logger = inr s /\
      String.length s = 16%nat) /\
  (exists x1 y1 x2 y2 s,
      (Int.in_range x1 /\ Int.in_range y1 /\
       Int.in_range x2 /\ Int.in_range y2) /\
      dot2d_returns x1 y1 x2 y2 spdlog.default_logger = inr s /\
      String.length s = 66%nat).
Proof.
  split; [| split].
  - intros x1 y1 x2 y2 lg R1 R2 R3 R4.
    eexists. split; [apply dot2d_returns_eq |].
    rewrite LengthFacts.rendered_length.
    pose proof (LengthFacts.to_string_length x1 R1).
    pose proof (LengthFacts.to_string_length y1 R2).
    pose proof (LengthFacts.to_string_length x2 R3).
    pose proof (LengthFacts.to_string_length y2 R4).
    pose proof (LengthFacts.to_string_length (dot2d_result x1 y1 x2 y2)
                  (IntFacts.wrap_in_range _)).
    lia.
  - exists 0, 0, 0, 0. eexists.
    split; [repeat split; intro; discriminate |].
    split; reflexivity.
  - exists (-2147483648), (-2147483648), (-2147483647), (-1000000000).
    eexists.
    split; [repeat split; intro; discriminate |].
    split; vm_compute; reflexivity.
Qed.

Lemma dot2d_returns_length_witness :
  exists s, dot2d_returns 46341 0 46341 0 spdlog.default_logger = inr s /\
            (16 <= String.length s <= 66)%nat.
Proof.
  assert (Int.in_range 46341) as A by (apply IntFacts.in_rangeb_spec; reflexivity).
  assert (Int.in_range 0) as B by (apply IntFacts.in_rangeb_spec; reflexivity).
  exact (proj1 dot2d_returns_length 46341 0 46341 0 spdlog.default_logger
               A B A B).
Defined.

(* ===================================================================== *)
(** ** Calls in a row *)
(* ===================================================================== *)

(** X8: two calls in a row return what the second call alone returns, and
    leave the logger's threshold alone; when the threshold lets [info]
    through they append their two records in call order behind what the
    sink held, otherwise they leave the logger as it was. *)
Theorem dot2d_twice_logs_in_order
        (a1 b1 a2 b2 c1 d1 c2 d2 : Z) (lg : spdlog.logger) :
  fst (dot2d_twice a1 b1 a2 b2 c1 d1 c2 d2 lg) =
    dot2d_returns c1 d1 c2 d2 lg /\
  snd (dot2d_twice a1 b1 a2 b2 c1 d1 c2 d2 lg) =
    (if spdlog.should_log lg spdlog.info
     then spdlog.mk_logger (spdlog.level lg)
            (spdlog.sink lg ++
             [(spdlog.info,
               ("Computed 2D dot product: "
                  ++ fmt.to_string (dot2d_result a1 b1 a2 b2))%string);
              (spdlog.info,
               ("Computed 2D dot product: "
                  ++ fmt.to_string (dot2d_result c1 d1 c2 d2))%string)])
     else lg).
Proof.
  unfold dot2d_twice, bind. rewrite (dot2d_run a1 b1 a2 b2 lg).
  rewrite dot2d_run, dot2d_returns_eq. cbn [fst snd].
  split; [reflexivity |].
  rewrite !LogFacts.log_info.
  destruct (spdlog.should_log lg spdlog.info) eqn:E.
  - change (spdlog.should_log (spdlog.sink_it lg _) spdlog.info)
      with (spdlog.should_log lg spdlog.info).
    rewrite E. unfold spdlog.sink_it. cbn [spdlog.level spdlog.sink].
    now rewrite <- app_assoc.
  - now rewrite E.
Qed.
